(** * Stopwatch / voltmeter firmware (NUCLEO-F401RE + multifunction shield)

    A shallow embedding of [main.cpp]: the global variables become a record,
    the output pins a chronological trace of pin writes, the potentiometer an
    oracle of samples, and every function of the firmware a computation in a
    small state-and-failure monad over that record.  Failure stands for an
    out-of-bounds array access. *)

From Stdlib Require Import ZArith List Bool Lia.
From Stdlib Require Import Floats.SpecFloat.
Import ListNotations.

Local Open Scope Z_scope.

(** ** Machine integers *)

(** [int] is 32 bits wide on the Cortex-M4; values are kept in [Z] and the
    two's-complement wrap-around of an increment is written out. *)
Module Int.

Definition min_signed : Z := -2147483648.
Definition max_signed : Z := 2147483647.

Definition in_range (z : Z) : Prop := min_signed <= z <= max_signed.

Definition wrap (z : Z) : Z := (z + 2147483648) mod 4294967296 - 2147483648.

Definition add (x y : Z) : Z := wrap (x + y).

(** C++ [/] and [%] truncate toward zero. *)
Definition div (x y : Z) : Z := Z.quot x y.
Definition rem (x y : Z) : Z := Z.rem x y.

Definition saturate (z : Z) : Z :=
  if z <? min_signed then min_signed
  else if max_signed <? z then max_signed
  else z.

End Int.

(** Conversion to [uint8_t]. *)
Definition uint8 (z : Z) : Z := z mod 256.

(** ** Single-precision floats *)

(** [float] is IEEE 754 binary32: 24 bits of mantissa, infinities at
    exponent 128.  The operations are those of the standard library's
    executable specification of IEEE arithmetic. *)
Module Float32.

Definition prec : Z := 24.
Definition emax : Z := 128.

Definition float : Type := spec_float.

Definition mul (x y : float) : float := SFmul prec emax x y.

(** Conversion of an integer constant to [float]. *)
Definition of_int (z : Z) : float := binary_normalize prec emax z 0 false.

Definition is_nan (x : float) : bool :=
  match x with S754_nan => true | _ => false end.

(** [fmin] and [fmax] of the C library: a NaN argument is ignored,
    otherwise [x < y ? x : y] and [x > y ? x : y]. *)
Definition fmin (x y : float) : float :=
  if is_nan x then y
  else if is_nan y then x
  else if SFltb x y then x else y.

Definition fmax (x y : float) : float :=
  if is_nan x then y
  else if is_nan y then x
  else if SFltb y x then x else y.

(** Conversion [float -> int] as the target performs it: rounding toward
    zero, saturating at the bounds of [int], NaN giving 0. *)
Definition to_int (x : float) : Z :=
  match x with
  | S754_zero _ => 0
  | S754_nan => 0
  | S754_infinity s => if s then Int.min_signed else Int.max_signed
  | S754_finite s m e =>
      let t := Z.shiftl (Zpos m) e in
      Int.saturate (if s then - t else t)
  end.

(** [x <= y] on floats; false when either is NaN. *)
Definition fle (x y : float) : Prop := SFleb x y = true.

End Float32.

Import Float32.

(** ** Constants of the firmware *)

Definition DIGIT_REFRESH_DELAY_MS : Z := 4.
Definition DP_POS : Z := 1.

(** [const float VREF = 3.3]: the binary32 value nearest to 3.3,
    13841203 * 2^-22. *)
Definition VREF : float := S754_finite false 13841203 (-22).

(** Segment patterns of the digits 0-9 (active low, bit 7 the decimal point). *)
Definition digitBits : list Z :=
  [ 0xC0; 0xF9; 0xA4; 0xB0; 0x99; 0x92; 0x82; 0xF8; 0x80; 0x90 ].

(** Digit-select patterns of the four positions. *)
Definition digitPos : list Z := [ 0x01; 0x02; 0x04; 0x08 ].

(** ** Machine state *)

Inductive pin : Type := latchPin | clockPin | dataPin.

(** What the firmware does to the outside world: a write to an output pin,
    or a delay. *)
Inductive event : Type :=
| PinWrite (p : pin) (v : Z)
| SleepFor (ms : Z).

Record machine : Type := mkMachine {
  seconds : Z;
  minutes : Z;
  showVolt : bool;
  currentDigit : Z;
  minVoltage : float;
  maxVoltage : float;
  (** events so far, oldest first *)
  trace : list event;
  (** the potentiometer: the value the [n]-th call of [pot.read()] returns *)
  pot : nat -> float;
  (** number of calls of [pot.read()] so far *)
  pot_reads : nat
}.

(** The state at the start of [main], for a given potentiometer. *)
Definition boot (p : nat -> float) : machine :=
  {| seconds := 0; minutes := 0; showVolt := false; currentDigit := 0;
     minVoltage := VREF; maxVoltage := S754_zero false;
     trace := []; pot := p; pot_reads := 0 |}.

Definition set_seconds (v : Z) (m : machine) : machine :=
  mkMachine v (minutes m) (showVolt m) (currentDigit m)
            (minVoltage m) (maxVoltage m) (trace m) (pot m) (pot_reads m).

Definition set_minutes (v : Z) (m : machine) : machine :=
  mkMachine (seconds m) v (showVolt m) (currentDigit m)
            (minVoltage m) (maxVoltage m) (trace m) (pot m) (pot_reads m).

Definition set_showVolt (v : bool) (m : machine) : machine :=
  mkMachine (seconds m) (minutes m) v (currentDigit m)
            (minVoltage m) (maxVoltage m) (trace m) (pot m) (pot_reads m).

Definition set_minVoltage (v : float) (m : machine) : machine :=
  mkMachine (seconds m) (minutes m) (showVolt m) (currentDigit m)
            v (maxVoltage m) (trace m) (pot m) (pot_reads m).

Definition set_maxVoltage (v : float) (m : machine) : machine :=
  mkMachine (seconds m) (minutes m) (showVolt m) (currentDigit m)
            (minVoltage m) v (trace m) (pot m) (pot_reads m).

Definition emit (e : event) (m : machine) : machine :=
  mkMachine (seconds m) (minutes m) (showVolt m) (currentDigit m)
            (minVoltage m) (maxVoltage m) (trace m ++ [e]) (pot m) (pot_reads m).

Definition advance_pot (m : machine) : machine :=
  mkMachine (seconds m) (minutes m) (showVolt m) (currentDigit m)
            (minVoltage m) (maxVoltage m) (trace m) (pot m) (S (pot_reads m)).

(** ** The firmware monad *)

Definition Fw (A : Type) : Type := machine -> option (A * machine).

Definition ret {A} (a : A) : Fw A := fun m => Some (a, m).

Definition bind {A B} (c : Fw A) (k : A -> Fw B) : Fw B :=
  fun m => match c m with
           | Some (a, m') => k a m'
           | None => None
           end.

Definition fail {A} : Fw A := fun _ => None.

Declare Scope fw_scope.
Delimit Scope fw_scope with fw.
Notation "x <- c ;; k" := (bind c (fun x => k))
  (at level 61, c at next level, right associativity) : fw_scope.
Notation "c ;; k" := (bind c (fun _ => k))
  (at level 61, right associativity) : fw_scope.
Local Open Scope fw_scope.

Definition read {A} (f : machine -> A) : Fw A := fun m => Some (f m, m).
Definition modify (f : machine -> machine) : Fw unit := fun m => Some (tt, f m).

(** [pin = v] on a [DigitalOut]. *)
Definition write_pin (p : pin) (v : Z) : Fw unit := modify (emit (PinWrite p v)).

(** [ThisThread::sleep_for(ms)]. *)
Definition sleep_for (ms : Z) : Fw unit := modify (emit (SleepFor ms)).

(** [pot.read()]. *)
Definition pot_read : Fw float :=
  fun m => Some (pot m (pot_reads m), advance_pot m).

(** [a[i]] on an array: defined only inside the array. *)
Definition index (a : list Z) (i : Z) : Fw Z :=
  if i <? 0 then fail
  else match nth_error a (Z.to_nat i) with
       | Some v => ret v
       | None => fail
       end.

(** [n] iterations of a loop body from index [i], the index moving by [step]
    and the body threading the local variables [a]. *)
Fixpoint iterate {A} (n : nat) (i step : Z) (body : Z -> A -> Fw A) (a : A) : Fw A :=
  match n with
  | O => ret a
  | S n' => a' <- body i a ;; iterate n' (i + step) step body a'
  end.

(** [for (int i = lo; i < hi; ++i)]. *)
Definition for_up {A} (lo hi : Z) (body : Z -> A -> Fw A) (a : A) : Fw A :=
  iterate (Z.to_nat (hi - lo)) lo 1 body a.

(** [for (int i = hi; i >= lo; i--)]. *)
Definition for_down {A} (hi lo : Z) (body : Z -> A -> Fw A) (a : A) : Fw A :=
  iterate (Z.to_nat (hi - lo + 1)) hi (-1) body a.

(** ** The functions of the firmware *)

Definition shiftOutMSBFirst (value : Z) : Fw unit :=
  for_down 7 0 (fun i _ =>
    write_pin dataPin (Z.land (Z.shiftr value i) 1) ;;
    write_pin clockPin 1 ;;
    write_pin clockPin 0) tt.

Definition writeToShiftRegister (bits digit : Z) : Fw unit :=
  write_pin latchPin 0 ;;
  shiftOutMSBFirst bits ;;
  shiftOutMSBFirst digit ;;
  write_pin latchPin 1.

Definition updateTime : Fw unit :=
  s <- read seconds ;;
  modify (set_seconds (Int.add s 1)) ;;
  s <- read seconds ;;
  if 60 <=? s then
    modify (set_seconds 0) ;;
    mi <- read minutes ;;
    modify (set_minutes (Int.rem (Int.add mi 1) 100))
  else ret tt.

(** The local variables of [updateDisplay]. *)
Record locals : Type := mkLocals {
  dispVal : Z;
  digits : list Z
}.

(** The four digits of [d], thousands first. *)
Definition decompose (d : Z) : list Z :=
  [ Int.rem (Int.div d 1000) 10;
    Int.rem (Int.div d 100) 10;
    Int.rem (Int.div d 10) 10;
    Int.rem d 10 ].

(** One iteration of the loop of [updateDisplay]. *)
Definition refresh_digit (i : Z) (l : locals) : Fw locals :=
  d <- index (digits l) i ;;
  b <- index digitBits d ;;
  sv <- read showVolt ;;
  bl <- (if sv && (i =? DP_POS) then
           let b' := uint8 (Z.land b (Z.lnot 0x80)) in
           r <- pot_read ;;
           let voltage := mul r VREF in
           lo <- read minVoltage ;;
           modify (set_minVoltage (fmin lo voltage)) ;;
           hi <- read maxVoltage ;;
           modify (set_maxVoltage (fmax hi voltage)) ;;
           ret (b', mkLocals (to_int (mul voltage (of_int 100))) (digits l))
         else ret (b, l)) ;;
  p <- index digitPos i ;;
  writeToShiftRegister (fst bl) p ;;
  sleep_for DIGIT_REFRESH_DELAY_MS ;;
  ret (snd bl).

(** [updateDisplay] returns nothing in the firmware; the model hands back
    the final values of its local variables, so that they can be spoken of. *)
Definition updateDisplay : Fw locals :=
  let dispVal0 := 0 in
  let l := mkLocals dispVal0 (decompose dispVal0) in
  for_up 0 4 refresh_digit l.

Definition resetTimeISR : Fw unit :=
  modify (set_seconds 0) ;;
  modify (set_minutes 0).

Definition toggleVoltModeISR : Fw unit := modify (set_showVolt true).

Definition releaseVoltModeISR : Fw unit := modify (set_showVolt false).

(** ** Runs of the firmware *)

(** What [main] attaches: two tickers and three button edges. *)
Inductive call : Type :=
| TickTime
| TickDisplay
| PressReset
| PressMode
| ReleaseMode.

Definition handler (c : call) : Fw unit :=
  match c with
  | TickTime => updateTime
  | TickDisplay => _ <- updateDisplay ;; ret tt
  | PressReset => resetTimeISR
  | PressMode => toggleVoltModeISR
  | ReleaseMode => releaseVoltModeISR
  end.

(** The handlers run one after the other, in the order given. *)
Fixpoint run (cs : list call) : Fw unit :=
  match cs with
  | [] => ret tt
  | c :: cs' => handler c ;; run cs'
  end.

(** * Vocabulary of the properties *)

(** ** Traces *)

(** Appending a batch of events. *)
Definition emit_all (es : list event) (m : machine) : machine :=
  mkMachine (seconds m) (minutes m) (showVolt m) (currentDigit m)
            (minVoltage m) (maxVoltage m) (trace m ++ es) (pot m) (pot_reads m).

(** The clock pulse that follows each data bit. *)
Definition clock_pulse : list event := [PinWrite clockPin 1; PinWrite clockPin 0].

(** The [k]-th bit of a byte sent most significant bit first. *)
Definition msb_bit (v : Z) (k : nat) : Z := Z.land (Z.shiftr v (7 - Z.of_nat k)) 1.

(** A byte on the wire: for k = 0..7 the [k]-th bit on the data pin, then a
    clock pulse. *)
Definition byte_msb_first (v : Z) : list event :=
  flat_map (fun k => PinWrite dataPin (msb_bit v k) :: clock_pulse) (seq 0 8).

(** A whole write: latch low, segment byte, digit-select byte, latch high. *)
Definition register_write (bits digit : Z) : list event :=
  [PinWrite latchPin 0] ++ byte_msb_first bits ++ byte_msb_first digit
    ++ [PinWrite latchPin 1].

(** Number of latch strobes in a trace: each one commits a write to the
    outputs of the shift register. *)
Definition is_strobe (e : event) : bool :=
  match e with
  | PinWrite latchPin 1 => true
  | _ => false
  end.

Definition strobes (tr : list event) : nat := length (filter is_strobe tr).

(** ** The display refresh *)

(** The voltage that the next [pot.read()] yields. *)
Definition next_voltage (m : machine) : float := mul (pot m (pot_reads m)) VREF.

(** What the decimal-point branch does to the globals. *)
Definition sampled (m : machine) : machine :=
  set_maxVoltage (fmax (maxVoltage m) (next_voltage m))
    (set_minVoltage (fmin (minVoltage m) (next_voltage m)) (advance_pot m)).

(** The segment byte sent for position [i]: the pattern of the digit 0, with
    the decimal point lit at [DP_POS] in voltage mode. *)
Definition segments (sv : bool) (i : Z) : Z :=
  if sv && (i =? DP_POS) then 0x40 else 0xC0.

Definition refresh_events (sv : bool) : list event :=
  flat_map (fun i => register_write (segments sv i) (Z.shiftl 1 i)
                       ++ [SleepFor DIGIT_REFRESH_DELAY_MS])
           [0; 1; 2; 3].

(** ** Floats and invariants *)

(** Zero of either sign, a positive number, plus infinity, or NaN. *)
Definition not_negative (x : float) : Prop :=
  match x with
  | S754_zero _ | S754_nan => True
  | S754_infinity s | S754_finite s _ _ => s = false
  end.

(** The ranges of the stopwatch counters. *)
Definition time_ok (m : machine) : Prop :=
  0 <= seconds m <= 59 /\ 0 <= minutes m <= 99.

(** The recorded extremes are numbers. *)
Definition volts_ok (m : machine) : Prop :=
  is_nan (minVoltage m) = false /\ is_nan (maxVoltage m) = false.

(** ** Concrete inputs *)

(** A potentiometer that always reads [x]. *)
Definition steady (x : float) : nat -> float := fun _ => x.

(** The reading 0.5: the wiper at mid-travel. *)
Definition half : float := S754_finite false 8388608 (-24).

(** One second before the stopwatch rolls over. *)
Definition at_99_59 : machine :=
  set_minutes 99 (set_seconds 59 (boot (steady half))).

(** Voltage mode, the wiper at mid-travel. *)
Definition measuring : machine := set_showVolt true (boot (steady half)).

(** ** The shift registers of the shield *)

(** The three pins drive two cascaded 8-bit shift registers with output
    latches, as the notes of [shiftOutMSBFirst] and [writeToShiftRegister]
    describe them: a rising edge of the clock shifts the level of the data
    pin in, a rising edge of the latch copies the 16 bits to the outputs.
    [d_shown] lists every value the outputs have taken, oldest first. *)
Record device : Type := mkDevice {
  d_data : bool;
  d_clock : bool;
  d_latch : bool;
  d_shift : Z;
  d_shown : list Z
}.

(** The level a [DigitalOut] takes when written [v]. *)
Definition level (v : Z) : bool := negb (v =? 0).

Definition shift_in (b : bool) (s : Z) : Z := (2 * s + Z.b2z b) mod 65536.

Definition device_step (d : device) (e : event) : device :=
  match e with
  | PinWrite dataPin v =>
      mkDevice (level v) (d_clock d) (d_latch d) (d_shift d) (d_shown d)
  | PinWrite clockPin v =>
      mkDevice (d_data d) (level v) (d_latch d)
               (if negb (d_clock d) && level v
                then shift_in (d_data d) (d_shift d) else d_shift d)
               (d_shown d)
  | PinWrite latchPin v =>
      mkDevice (d_data d) (d_clock d) (level v) (d_shift d)
               (if negb (d_latch d) && level v
                then d_shown d ++ [d_shift d] else d_shown d)
  | SleepFor _ => d
  end.

(** All pins low and the registers clear, as after power-on. *)
Definition power_on : device := mkDevice false false false 0 [].

Definition drive (d : device) (tr : list event) : device :=
  fold_left device_step tr d.

(** The shift registers after everything the firmware has done so far. *)
Definition shield (m : machine) : device := drive power_on (trace m).

(** The 16 bits a write of [bits] and [digit] puts on the outputs. *)
Definition frame (bits digit : Z) : Z := 256 * bits + digit.

(** ** Histories of calls *)

(** Whether the most recent edge of the mode button was a press; the list
    is read newest first. *)
Fixpoint mode_held_rev (rcs : list call) : bool :=
  match rcs with
  | [] => false
  | PressMode :: _ => true
  | ReleaseMode :: _ => false
  | _ :: r => mode_held_rev r
  end.

Definition mode_held (cs : list call) : bool := mode_held_rev (rev cs).

(** Number of time ticks since the most recent press of the reset button;
    the list is read newest first. *)
Fixpoint ticks_since_reset_rev (rcs : list call) : Z :=
  match rcs with
  | [] => 0
  | PressReset :: _ => 0
  | TickTime :: r => 1 + ticks_since_reset_rev r
  | _ :: r => ticks_since_reset_rev r
  end.

Definition ticks_since_reset (cs : list call) : Z :=
  ticks_since_reset_rev (rev cs).

(** The modes in which the display ticks of a history ran, oldest first,
    the mode flag being [sv] at its start. *)
Fixpoint refresh_modes (sv : bool) (cs : list call) : list bool :=
  match cs with
  | [] => []
  | TickDisplay :: cs' => sv :: refresh_modes sv cs'
  | PressMode :: cs' => refresh_modes true cs'
  | ReleaseMode :: cs' => refresh_modes false cs'
  | _ :: cs' => refresh_modes sv cs'
  end.

(** The four values one refresh puts on the outputs, in order. *)
Definition refresh_frames (sv : bool) : list Z :=
  map (fun i => frame (segments sv i) (Z.shiftl 1 i)) [0; 1; 2; 3].


(** ** Time and voltages *)

(** The time shown by the counters, in seconds. *)
Definition total_seconds (m : machine) : Z := 60 * minutes m + seconds m.

(** The weighted sum of four decimal digits, thousands first. *)
Definition recompose (ds : list Z) : Z :=
  match ds with
  | [a; b; c; d] => 1000 * a + 100 * b + 10 * c + d
  | _ => 0
  end.

(** The voltage computed from the [k]-th reading of the potentiometer. *)
Definition voltage_at (p : nat -> float) (k : nat) : float := mul (p k) VREF.

(** Every reading taken so far that gave a number lies between the recorded
    extremes. *)
Definition bounds_samples (p : nat -> float) (m : machine) : Prop :=
  forall k, (k < pot_reads m)%nat -> is_nan (voltage_at p k) = false ->
    fle (minVoltage m) (voltage_at p k) /\ fle (voltage_at p k) (maxVoltage m).

(** Each recorded extreme is its initial value or one of the voltages
    computed so far. *)
Definition attained (p : nat -> float) (m : machine) : Prop :=
  (minVoltage m = VREF \/
   exists k, (k < pot_reads m)%nat /\ minVoltage m = voltage_at p k) /\
  (maxVoltage m = S754_zero false \/
   exists k, (k < pot_reads m)%nat /\ maxVoltage m = voltage_at p k).

Definition extremes_ok (p : nat -> float) (m : machine) : Prop :=
  pot m = p /\ volts_ok m /\ bounds_samples p m /\ attained p m.

(** * Auxiliary results *)

(** ** Running a computation step by step *)

Lemma bind_eq {A B} (c : Fw A) (k : A -> Fw B) m a m' :
  c m = Some (a, m') -> bind c k m = k a m'.
Proof. intros H; unfold bind; now rewrite H. Qed.

(** ** Traces *)

Lemma emit_emit_all e es m : emit e (emit_all es m) = emit_all (es ++ [e]) m.
Proof. unfold emit, emit_all; simpl; now rewrite app_assoc. Qed.

Lemma emit_all_emit_all es1 es2 m :
  emit_all es2 (emit_all es1 m) = emit_all (es1 ++ es2) m.
Proof. unfold emit_all; simpl; now rewrite app_assoc. Qed.

Lemma emit_as_emit_all e m : emit e m = emit_all [e] m.
Proof. reflexivity. Qed.

Lemma shiftOutMSBFirst_eq v m :
  shiftOutMSBFirst v m = Some (tt, emit_all (byte_msb_first v) m).
Proof.
  unfold shiftOutMSBFirst, for_down.
  change (Z.to_nat (7 - 0 + 1)) with 8%nat.
  cbn [iterate]. unfold bind, write_pin, modify.
  rewrite !emit_as_emit_all, !emit_all_emit_all.
  reflexivity.
Qed.

Lemma writeToShiftRegister_eq bits digit m :
  writeToShiftRegister bits digit m = Some (tt, emit_all (register_write bits digit) m).
Proof.
  unfold writeToShiftRegister, bind at 1, write_pin at 1, modify at 1.
  unfold bind at 1. rewrite shiftOutMSBFirst_eq.
  unfold bind at 1. rewrite shiftOutMSBFirst_eq.
  unfold write_pin, modify.
  rewrite !emit_as_emit_all, !emit_all_emit_all.
  reflexivity.
Qed.

(** ** The display refresh in closed form *)

Lemma refresh_digit_eq i d m :
  In i [0; 1; 2; 3] ->
  refresh_digit i (mkLocals d [0; 0; 0; 0]) m =
  Some (if showVolt m && (i =? DP_POS)
        then mkLocals (to_int (mul (next_voltage m) (of_int 100))) [0; 0; 0; 0]
        else mkLocals d [0; 0; 0; 0],
        emit_all (register_write (segments (showVolt m) i) (Z.shiftl 1 i)
                    ++ [SleepFor DIGIT_REFRESH_DELAY_MS])
                 (if showVolt m && (i =? DP_POS) then sampled m else m)).
Proof.
  intros Hi.
  assert (Hcases : i = 0 \/ i = 1 \/ i = 2 \/ i = 3) by (simpl in Hi; intuition congruence).
  clear Hi.
  destruct m as [s mi sv cd lo hi tr p n].
  destruct Hcases as [-> | [-> | [-> | ->]]]; destruct sv;
    cbv -[writeToShiftRegister mul fmin fmax to_int of_int register_write
          emit emit_all next_voltage sampled];
    rewrite writeToShiftRegister_eq, emit_emit_all; reflexivity.
Qed.

Lemma showVolt_emit_all es m : showVolt (emit_all es m) = showVolt m.
Proof. reflexivity. Qed.

Lemma showVolt_sampled m : showVolt (sampled m) = showVolt m.
Proof. reflexivity. Qed.

Lemma sampled_emit_all es m : sampled (emit_all es m) = emit_all es (sampled m).
Proof. reflexivity. Qed.

Lemma next_voltage_emit_all es m : next_voltage (emit_all es m) = next_voltage m.
Proof. reflexivity. Qed.

Create Rewrite HintDb machine.
#[local] Hint Rewrite showVolt_emit_all showVolt_sampled sampled_emit_all
  next_voltage_emit_all emit_all_emit_all : machine.

Lemma updateDisplay_eq m :
  updateDisplay m =
  Some (mkLocals (if showVolt m
                  then to_int (mul (next_voltage m) (of_int 100)) else 0)
                 [0; 0; 0; 0],
        emit_all (refresh_events (showVolt m))
                 (if showVolt m then sampled m else m)).
Proof.
  unfold updateDisplay, for_up.
  change (Z.to_nat (4 - 0)) with 4%nat.
  change (decompose 0) with [0; 0; 0; 0].
  cbn [iterate].
  destruct (showVolt m) eqn:Hsv;
    do 4 (erewrite bind_eq by (apply refresh_digit_eq; simpl; tauto);
          autorewrite with machine; rewrite Hsv;
          cbn [andb Z.add Z.eqb Pos.eqb Pos.add Pos.succ DP_POS segments]);
    unfold ret, refresh_events; cbn [flat_map segments andb Z.eqb Pos.eqb DP_POS];
    autorewrite with machine; rewrite <- ?app_assoc; reflexivity.
Qed.

(** ** The float constants *)

(** [VREF] is 33/10 correctly rounded to binary32, and [half] is 1/2. *)
Lemma VREF_is_3_3 : VREF = SFdiv prec emax (of_int 33) (of_int 10).
Proof. reflexivity. Qed.

Lemma half_is_1_2 : half = SFdiv prec emax (of_int 1) (of_int 2).
Proof. reflexivity. Qed.

(** The segment bytes of a refresh are the table entry of the digit 0, with
    bit 7 cleared where the decimal point is lit. *)
Lemma segments_from_table sv i :
  segments sv i =
  if sv && (i =? DP_POS)
  then uint8 (Z.land (nth 0 digitBits 0) (Z.lnot 0x80))
  else nth 0 digitBits 0.
Proof. reflexivity. Qed.

(** ** Order of floats *)

Lemma SFcompare_antisym x y :
  SFcompare y x = option_map CompOpp (SFcompare x y).
Proof.
  destruct x as [sx | sx | | sx mx ex], y as [sy | sy | | sy my ey];
    try destruct sx; try destruct sy; try reflexivity;
    simpl; rewrite (Z.compare_antisym ex ey);
    destruct (Z.compare ex ey); simpl; try reflexivity;
    change (Pos.compare_cont Eq my mx) with (Pos.compare my mx);
    change (Pos.compare_cont Eq mx my) with (Pos.compare mx my);
    rewrite (Pos.compare_antisym mx my); now rewrite ?CompOpp_involutive.
Qed.

Lemma SFcompare_refl x : is_nan x = false -> SFcompare x x = Some Eq.
Proof.
  destruct x as [s | s | | s m e]; try destruct s; simpl; try easy;
    intros _; rewrite Z.compare_refl;
    change (Pos.compare_cont Eq m m) with (Pos.compare m m);
    now rewrite Pos.compare_refl.
Qed.

Lemma fle_refl x : is_nan x = false -> fle x x.
Proof. intros H; unfold fle, SFleb; now rewrite SFcompare_refl. Qed.

Lemma not_lt_le x y :
  is_nan x = false -> is_nan y = false -> SFltb x y = false -> fle y x.
Proof.
  unfold fle, SFleb, SFltb; intros Hx Hy.
  rewrite (SFcompare_antisym x y).
  destruct x, y; try discriminate;
    match goal with |- context [SFcompare ?a ?b] => destruct (SFcompare a b) as [[ | | ] | ] eqn:E end;
    simpl; try easy; simpl in E; discriminate.
Qed.

Lemma fmin_not_nan x y : is_nan x = false -> is_nan (fmin x y) = false.
Proof.
  intros Hx; unfold fmin; rewrite Hx.
  destruct (is_nan y) eqn:Hy; [exact Hx | now destruct (SFltb x y)].
Qed.

Lemma fmax_not_nan x y : is_nan x = false -> is_nan (fmax x y) = false.
Proof.
  intros Hx; unfold fmax; rewrite Hx.
  destruct (is_nan y) eqn:Hy; [exact Hx | now destruct (SFltb y x)].
Qed.

Lemma fmin_le x y : is_nan x = false -> fle (fmin x y) x.
Proof.
  intros Hx; unfold fmin; rewrite Hx.
  destruct (is_nan y) eqn:Hy; [now apply fle_refl | ].
  destruct (SFltb x y) eqn:Hlt; [now apply fle_refl | now apply not_lt_le].
Qed.

Lemma fmax_ge x y : is_nan x = false -> fle x (fmax x y).
Proof.
  intros Hx; unfold fmax; rewrite Hx.
  destruct (is_nan y) eqn:Hy; [now apply fle_refl | ].
  destruct (SFltb y x) eqn:Hlt; [now apply fle_refl | now apply not_lt_le].
Qed.

(** ** Signs of floats *)

Lemma binary_round_aux_sign s mx ex lx :
  match binary_round_aux prec emax s mx ex lx with
  | S754_zero s' | S754_infinity s' | S754_finite s' _ _ => s' = s
  | S754_nan => True
  end.
Proof.
  unfold binary_round_aux.
  destruct (shr_fexp prec emax mx ex lx) as [mrs e'].
  destruct (shr_fexp prec emax _ e' loc_Exact) as [mrs' e''].
  destruct (shr_m mrs'); [reflexivity | | exact I].
  now destruct (Z.leb e'' (emax - prec)).
Qed.

Lemma mul_not_negative x y :
  not_negative x -> not_negative y -> not_negative (mul x y).
Proof.
  destruct x as [sx | sx | | sx mx ex], y as [sy | sy | | sy my ey];
    simpl; intros Hx Hy; subst; try exact I; try reflexivity.
  unfold mul, SFmul.
  pose proof (binary_round_aux_sign (xorb false false)
                (Zpos (mx * my)) (ex + ey) loc_Exact) as H.
  destruct (binary_round_aux prec emax _ _ _ _); simpl; auto.
Qed.

Lemma to_int_not_negative x : not_negative x -> 0 <= to_int x.
Proof.
  destruct x as [s | s | | s m e]; simpl; intros H; subst; try easy.
  pose proof (proj2 (Z.shiftl_nonneg (Zpos m) e) (Pos2Z.is_nonneg m)) as Ht.
  unfold Int.saturate, Int.min_signed, Int.max_signed.
  destruct (Z.ltb_spec (Z.shiftl (Zpos m) e) (-2147483648)); [lia | ].
  destruct (Z.ltb_spec 2147483647 (Z.shiftl (Zpos m) e)); lia.
Qed.

Lemma le_zero_not_negative x : fle (S754_zero false) x -> not_negative x.
Proof.
  unfold fle, SFleb.
  destruct x as [s | s | | s m e]; simpl; try easy; now destruct s.
Qed.

Lemma VREF_not_negative : not_negative VREF.
Proof. reflexivity. Qed.

Lemma hundred_not_negative : not_negative (of_int 100).
Proof. reflexivity. Qed.

(** ** Integers *)

Lemma add_in_range x y : Int.in_range (x + y) -> Int.add x y = x + y.
Proof.
  unfold Int.in_range, Int.min_signed, Int.max_signed, Int.add, Int.wrap.
  intros H. rewrite Z.mod_small; lia.
Qed.

Lemma decompose_digits d :
  0 <= d -> Forall (fun x => 0 <= x <= 9) (decompose d).
Proof.
  intros Hd. unfold decompose, Int.rem, Int.div.
  repeat constructor;
    match goal with
    | |- 0 <= Z.rem ?a 10 => apply Z.rem_nonneg; [lia | ]
    | |- Z.rem ?a 10 <= 9 =>
        assert (0 <= a) by (try apply Z.quot_pos; lia);
        pose proof (Z.rem_bound_pos a 10); lia
    end;
    try apply Z.quot_pos; lia.
Qed.

Lemma index_in_bounds a i v m m' :
  index a i m = Some (v, m') -> 0 <= i < Z.of_nat (length a).
Proof.
  unfold index. destruct (Z.ltb_spec i 0); [discriminate | ].
  destruct (nth_error a (Z.to_nat i)) eqn:E; [ | discriminate].
  intros _. assert (Hlt : (Z.to_nat i < length a)%nat)
    by (apply nth_error_Some; congruence).
  lia.
Qed.

(** ** Invariants of the globals *)

Lemma updateTime_eq m :
  updateTime m =
  Some (tt, if 60 <=? Int.add (seconds m) 1
            then set_minutes (Int.rem (Int.add (minutes m) 1) 100)
                             (set_seconds 0 m)
            else set_seconds (Int.add (seconds m) 1) m).
Proof.
  unfold updateTime, bind, read, modify, ret; simpl.
  now destruct (60 <=? Int.add (seconds m) 1).
Qed.

Lemma updateTime_in_range m :
  time_ok m ->
  updateTime m =
  Some (tt, if seconds m =? 59
            then set_minutes ((minutes m + 1) mod 100) (set_seconds 0 m)
            else set_seconds (seconds m + 1) m).
Proof.
  intros [Hs Hm]. rewrite updateTime_eq.
  rewrite !add_in_range
    by (unfold Int.in_range, Int.min_signed, Int.max_signed; lia).
  unfold Int.rem. rewrite Z.rem_mod_nonneg by lia.
  destruct (Z.leb_spec 60 (seconds m + 1)), (Z.eqb_spec (seconds m) 59);
    try lia; reflexivity.
Qed.

Lemma updateTime_keeps_time_ok m :
  time_ok m -> exists m', updateTime m = Some (tt, m') /\ time_ok m'.
Proof.
  intros H. rewrite (updateTime_in_range m H). destruct H as [Hs Hm].
  eexists; split; [reflexivity | ].
  destruct (Z.eqb_spec (seconds m) 59); unfold time_ok; simpl.
  - pose proof (Z.mod_pos_bound (minutes m + 1) 100). lia.
  - lia.
Qed.

Lemma handler_keeps_invariants c m :
  time_ok m -> volts_ok m ->
  exists m', handler c m = Some (tt, m') /\ time_ok m' /\ volts_ok m'.
Proof.
  intros Ht Hv. destruct c; simpl.
  - destruct (updateTime_keeps_time_ok m Ht) as (m' & E & Ht').
    exists m'. repeat split; try apply Ht'; try assumption.
    + rewrite updateTime_in_range in E by assumption.
      injection E as <-. destruct (seconds m =? 59); apply Hv.
    + rewrite updateTime_in_range in E by assumption.
      injection E as <-. destruct (seconds m =? 59); apply Hv.
  - erewrite bind_eq by apply updateDisplay_eq.
    eexists; split; [reflexivity | ].
    destruct Hv as [Hlo Hhi].
    destruct (showVolt m); unfold time_ok, volts_ok; simpl;
      repeat split; try apply Ht; try assumption.
    + now apply fmin_not_nan.
    + now apply fmax_not_nan.
  - eexists; split; [reflexivity | ]. unfold time_ok; simpl.
    split; [lia | exact Hv].
  - eexists; split; [reflexivity | ]. split; [exact Ht | exact Hv].
  - eexists; split; [reflexivity | ]. split; [exact Ht | exact Hv].
Qed.

Lemma run_keeps_invariants cs : forall m,
  time_ok m -> volts_ok m ->
  exists m', run cs m = Some (tt, m') /\ time_ok m' /\ volts_ok m'.
Proof.
  induction cs as [ | c cs IH]; intros m Ht Hv; simpl.
  - exists m. split; [reflexivity | split; assumption].
  - destruct (handler_keeps_invariants c m Ht Hv) as (m1 & E1 & Ht1 & Hv1).
    destruct (IH m1 Ht1 Hv1) as (m2 & E2 & Ht2 & Hv2).
    exists m2. split; [ | now split].
    now rewrite (bind_eq _ _ _ _ _ E1).
Qed.

Lemma boot_time_ok p : time_ok (boot p).
Proof. unfold time_ok; simpl; lia. Qed.

Lemma boot_volts_ok p : volts_ok (boot p).
Proof. now split. Qed.

Lemma reachable_invariants p cs :
  exists m, run cs (boot p) = Some (tt, m) /\ time_ok m /\ volts_ok m.
Proof. apply run_keeps_invariants; [apply boot_time_ok | apply boot_volts_ok]. Qed.

(** * Properties of the firmware *)

(** C1. A call of [updateTime] with the counters in their ranges: from 59
    seconds the seconds go to 0 and the minutes advance modulo 100, so that
    99:59 is followed by 0:00; from any other value the seconds advance by
    one and the minutes stay. *)
Theorem updateTime_rollover m :
  time_ok m ->
  exists m', updateTime m = Some (tt, m') /\
    (seconds m = 59 ->
       seconds m' = 0 /\ minutes m' = (minutes m + 1) mod 100) /\
    (seconds m = 59 -> minutes m = 99 -> minutes m' = 0) /\
    (seconds m <> 59 ->
       seconds m' = seconds m + 1 /\ minutes m' = minutes m).
Proof.
  intros H. rewrite (updateTime_in_range m H).
  eexists; split; [reflexivity | ].
  destruct (Z.eqb_spec (seconds m) 59) as [E | E]; simpl.
  - split; [now intros _ | split; [ | now intros]].
    intros _ ->. reflexivity.
  - split; [now intros | split; [now intros | now intros _]].
Qed.

(** The rollover at 99:59. *)
Lemma updateTime_rollover_witness :
  time_ok at_99_59 /\
  exists m', updateTime at_99_59 = Some (tt, m') /\
    (seconds at_99_59 = 59 ->
       seconds m' = 0 /\ minutes m' = (minutes at_99_59 + 1) mod 100) /\
    (seconds at_99_59 = 59 -> minutes at_99_59 = 99 -> minutes m' = 0) /\
    (seconds at_99_59 <> 59 ->
       seconds m' = seconds at_99_59 + 1 /\ minutes m' = minutes at_99_59).
Proof.
  assert (H : time_ok at_99_59) by (unfold time_ok; simpl; lia).
  split; [exact H | exact (updateTime_rollover at_99_59 H)].
Defined.

(** C2. Whatever the stopwatch shows, [updateDisplay] decomposes the
    constant 0: its digit array is [0; 0; 0; 0] at the start of the pass and
    stays so, and the bytes it sends are those of the digit 0. *)
Theorem updateDisplay_digits_zero m :
  exists l m', updateDisplay m = Some (l, m') /\
    digits l = decompose 0 /\
    digits l = [0; 0; 0; 0] /\
    trace m' = trace m ++ refresh_events (showVolt m).
Proof.
  rewrite updateDisplay_eq. do 2 eexists. split; [reflexivity | ].
  repeat split. now destruct (showVolt m).
Qed.

(** C3, at the failing input.  In voltage mode with the wiper at mid-travel
    the sampled voltage gives [dispVal = 165], yet the digits stay those of
    0 and not those of 165, and the four segment bytes sent are the pattern
    of the digit 0 (with the decimal point at position 1). *)
Theorem updateDisplay_drops_voltage :
  exists l m', updateDisplay measuring = Some (l, m') /\
    dispVal l = 165 /\
    digits l = [0; 0; 0; 0] /\
    decompose (dispVal l) = [0; 1; 6; 5] /\
    trace m' = register_write 0xC0 1 ++ [SleepFor 4]
            ++ register_write 0x40 2 ++ [SleepFor 4]
            ++ register_write 0xC0 4 ++ [SleepFor 4]
            ++ register_write 0xC0 8 ++ [SleepFor 4].
Proof.
  rewrite updateDisplay_eq. do 2 eexists. split; [reflexivity | ].
  repeat split.
Qed.

(** C4. After any run of the firmware from boot, a call of [updateDisplay]
    does not raise [minVoltage] and does not lower [maxVoltage], and leaves
    both as they are when [showVolt] is false; the other handlers never
    touch them. *)
Theorem voltage_extremes_monotone p cs :
  exists m, run cs (boot p) = Some (tt, m) /\
    (exists l m', updateDisplay m = Some (l, m') /\
       fle (minVoltage m') (minVoltage m) /\
       fle (maxVoltage m) (maxVoltage m') /\
       (showVolt m = false ->
          minVoltage m' = minVoltage m /\ maxVoltage m' = maxVoltage m)) /\
    (forall c, c <> TickDisplay ->
       exists m', handler c m = Some (tt, m') /\
         minVoltage m' = minVoltage m /\ maxVoltage m' = maxVoltage m).
Proof.
  destruct (reachable_invariants p cs) as (m & E & Ht & Hlo & Hhi).
  exists m. split; [exact E | split].
  - rewrite updateDisplay_eq. do 2 eexists. split; [reflexivity | ].
    destruct (showVolt m); simpl.
    + split; [now apply fmin_le | split; [now apply fmax_ge | discriminate]].
    + split; [now apply fle_refl | split; [now apply fle_refl | now intros _]].
  - intros c Hc. destruct c; try congruence; simpl.
    + rewrite updateTime_eq. eexists; split; [reflexivity | ].
      now destruct (60 <=? Int.add (seconds m) 1).
    + eexists; split; [reflexivity | now split].
    + eexists; split; [reflexivity | now split].
    + eexists; split; [reflexivity | now split].
Qed.

(** A run that enters voltage mode, refreshes once and leaves it. *)
Lemma voltage_extremes_monotone_witness :
  exists m, run [PressMode; TickDisplay; ReleaseMode] (boot (steady half))
              = Some (tt, m) /\
    (exists l m', updateDisplay m = Some (l, m') /\
       fle (minVoltage m') (minVoltage m) /\
       fle (maxVoltage m) (maxVoltage m') /\
       (showVolt m = false ->
          minVoltage m' = minVoltage m /\ maxVoltage m' = maxVoltage m)) /\
    (forall c, c <> TickDisplay ->
       exists m', handler c m = Some (tt, m') /\
         minVoltage m' = minVoltage m /\ maxVoltage m' = maxVoltage m).
Proof.
  exact (voltage_extremes_monotone (steady half)
           [PressMode; TickDisplay; ReleaseMode]).
Defined.

(** C5. [resetTimeISR] zeroes both counters from any state and changes
    nothing else. *)
Theorem resetTimeISR_zeroes m :
  exists m', resetTimeISR m = Some (tt, m') /\
    seconds m' = 0 /\ minutes m' = 0 /\
    showVolt m' = showVolt m /\
    minVoltage m' = minVoltage m /\ maxVoltage m' = maxVoltage m /\
    currentDigit m' = currentDigit m /\
    trace m' = trace m /\ pot m' = pot m /\ pot_reads m' = pot_reads m.
Proof. eexists; split; [reflexivity | ]. now repeat split. Qed.

(** C6. [toggleVoltModeISR] sets [showVolt] and [releaseVoltModeISR] clears
    it, from any state and touching nothing else; running either handler
    twice is the same as running it once. *)
Theorem volt_mode_handlers m :
  toggleVoltModeISR m = Some (tt, set_showVolt true m) /\
  releaseVoltModeISR m = Some (tt, set_showVolt false m) /\
  showVolt (set_showVolt true m) = true /\
  showVolt (set_showVolt false m) = false /\
  (toggleVoltModeISR ;; toggleVoltModeISR) m = toggleVoltModeISR m /\
  (releaseVoltModeISR ;; releaseVoltModeISR) m = releaseVoltModeISR m.
Proof. now repeat split. Qed.

(** C7. [writeToShiftRegister bits digit] appends to the trace exactly:
    latch low; the eight bits of [bits], most significant first, each on the
    data pin and followed by a clock pulse 1, 0; the eight bits of [digit]
    likewise; latch high.  The [k]-th bit sent of a byte [v] is
    [(v >> (7 - k)) & 1].  Nothing but the trace changes. *)
Theorem writeToShiftRegister_trace bits digit m :
  exists m', writeToShiftRegister bits digit m = Some (tt, m') /\
    trace m' = trace m
                 ++ [PinWrite latchPin 0]
                 ++ byte_msb_first bits
                 ++ byte_msb_first digit
                 ++ [PinWrite latchPin 1] /\
    m' = emit_all (register_write bits digit) m /\
    (forall v k, (k < 8)%nat ->
       firstn 3 (skipn (3 * k) (byte_msb_first v)) =
       [PinWrite dataPin (Z.land (Z.shiftr v (7 - Z.of_nat k)) 1);
        PinWrite clockPin 1; PinWrite clockPin 0]) /\
    (forall v, length (byte_msb_first v) = 24%nat).
Proof.
  rewrite writeToShiftRegister_eq. eexists; split; [reflexivity | ].
  repeat split.
  intros v k Hk.
  do 8 (destruct k as [ | k]; [reflexivity | ]). lia.
Qed.

Lemma strobes_app a b : strobes (a ++ b) = (strobes a + strobes b)%nat.
Proof. unfold strobes. now rewrite filter_app, length_app. Qed.

Lemma strobes_refresh_events sv : strobes (refresh_events sv) = 4%nat.
Proof. now destruct sv. Qed.

Lemma index_pure a i v m m' : index a i m = Some (v, m') -> m' = m.
Proof.
  unfold index. destruct (i <? 0); [discriminate | ].
  destruct (nth_error a (Z.to_nat i)); [ | discriminate].
  unfold ret. congruence.
Qed.

(** C8, as stated, fails at boot: one call of [updateDisplay] strobes the
    latch four times, not once. *)
Lemma updateDisplay_not_single_write :
  (exists l m', updateDisplay (boot (steady half)) = Some (l, m') /\
     strobes (trace m') = 4%nat) /\
  ~ (exists l m', updateDisplay (boot (steady half)) = Some (l, m') /\
       strobes (trace m') = 1%nat).
Proof.
  split.
  - rewrite updateDisplay_eq. do 2 eexists. split; reflexivity.
  - intros (l & m' & E & H). rewrite updateDisplay_eq in E.
    injection E as _ <-. discriminate H.
Qed.

(** C8, amended.  Each call of [updateDisplay] performs exactly four
    shift-register writes, one per loop iteration i = 0..3, each followed by
    the refresh delay; the i-th write selects digit line i alone (its
    digit-select byte is [digitPos[i] = 1 << i]). *)
Theorem updateDisplay_four_writes m :
  exists l m', updateDisplay m = Some (l, m') /\
    trace m' =
      trace m ++
      flat_map (fun i => register_write (segments (showVolt m) i) (Z.shiftl 1 i)
                           ++ [SleepFor DIGIT_REFRESH_DELAY_MS])
               [0; 1; 2; 3] /\
    strobes (trace m') = (strobes (trace m) + 4)%nat /\
    map (Z.shiftl 1) [0; 1; 2; 3] = digitPos.
Proof.
  rewrite updateDisplay_eq. do 2 eexists. split; [reflexivity | ].
  assert (Ht : forall es, trace (emit_all es (if showVolt m then sampled m else m))
                          = trace m ++ es) by now destruct (showVolt m).
  rewrite Ht, strobes_app, strobes_refresh_events.
  now repeat split.
Qed.

(** C9. The counters are in their ranges at boot; [updateTime] and
    [resetTimeISR] keep them there; hence after every run of the firmware,
    whatever the order of the calls, the seconds are within 0..59 and the
    minutes within 0..99. *)
Theorem counters_stay_in_range :
  (forall p, time_ok (boot p)) /\
  (forall m, time_ok m ->
     exists m', updateTime m = Some (tt, m') /\ time_ok m') /\
  (forall m, exists m', resetTimeISR m = Some (tt, m') /\ time_ok m') /\
  (forall p cs, exists m, run cs (boot p) = Some (tt, m) /\
     0 <= seconds m <= 59 /\ 0 <= minutes m <= 99).
Proof.
  split; [exact boot_time_ok | ].
  split; [exact updateTime_keeps_time_ok | ].
  split.
  - intros m. eexists; split; [reflexivity | ]. unfold time_ok; simpl; lia.
  - intros p cs. destruct (reachable_invariants p cs) as (m & E & Ht & _).
    exists m. split; [exact E | exact Ht].
Qed.

(** C10. [updateDisplay] never reads [digitBits] out of bounds: the call
    always completes, every iteration that completes has looked up an index
    within 0..9, and the digit array holds such indices only.  The digits of
    a non-negative value are within 0..9, and the value written to [dispVal]
    is non-negative when the sample read is. *)
Theorem digitBits_index_in_bounds m :
  exists l m', updateDisplay m = Some (l, m') /\
    Forall (fun d => 0 <= d < Z.of_nat (length digitBits)) (digits l) /\
    Z.of_nat (length digitBits) = 10 /\
    (forall i l0 m0 r, refresh_digit i l0 m0 = Some r ->
       exists d, index (digits l0) i m0 = Some (d, m0) /\ 0 <= d <= 9) /\
    (forall d, 0 <= d -> Forall (fun x => 0 <= x <= 9) (decompose d)) /\
    (fle (S754_zero false) (pot m (pot_reads m)) -> 0 <= dispVal l).
Proof.
  rewrite updateDisplay_eq. do 2 eexists. split; [reflexivity | ].
  split; [ | split; [reflexivity | split; [ | split]]].
  - simpl. repeat (constructor; try lia).
  - intros i l0 m0 r. unfold refresh_digit, bind.
    destruct (index (digits l0) i m0) as [[d m1] | ] eqn:Ed; [ | discriminate].
    pose proof (index_pure _ _ _ _ _ Ed) as ->.
    destruct (index digitBits d m0) as [[b m2] | ] eqn:Eb; [ | discriminate].
    intros _. exists d. split; [reflexivity | ].
    apply index_in_bounds in Eb. simpl in Eb. lia.
  - exact decompose_digits.
  - intros Hr. simpl. destruct (showVolt m); [ | lia].
    apply to_int_not_negative.
    apply mul_not_negative; [ | exact hundred_not_negative].
    apply mul_not_negative; [ | exact VREF_not_negative].
    now apply le_zero_not_negative.
Qed.

(** In voltage mode with the wiper at mid-travel. *)
Lemma digitBits_index_in_bounds_witness :
  fle (S754_zero false) (pot measuring (pot_reads measuring)) /\
  exists l m', updateDisplay measuring = Some (l, m') /\
    Forall (fun d => 0 <= d < Z.of_nat (length digitBits)) (digits l) /\
    Z.of_nat (length digitBits) = 10 /\
    (forall i l0 m0 r, refresh_digit i l0 m0 = Some r ->
       exists d, index (digits l0) i m0 = Some (d, m0) /\ 0 <= d <= 9) /\
    (forall d, 0 <= d -> Forall (fun x => 0 <= x <= 9) (decompose d)) /\
    (fle (S754_zero false) (pot measuring (pot_reads measuring)) ->
       0 <= dispVal l).
Proof.
  split; [reflexivity | exact (digitBits_index_in_bounds measuring)].
Defined.

(** * Further results *)

(** ** Runs, piece by piece *)

Lemma run_app a b m : run (a ++ b) m = (run a ;; run b) m.
Proof.
  revert m; induction a as [ | c a IH]; intros m; simpl.
  - reflexivity.
  - unfold bind. destruct (handler c m) as [[[] m1] | ]; [ | reflexivity].
    rewrite IH. reflexivity.
Qed.

Lemma run_snoc cs c m m1 :
  run cs m = Some (tt, m1) -> run (cs ++ [c]) m = (handler c ;; ret tt) m1.
Proof.
  intros E. rewrite run_app. now rewrite (bind_eq _ _ _ _ _ E).
Qed.

Lemma handler_ret c m m' :
  handler c m = Some (tt, m') -> (handler c ;; ret tt) m = Some (tt, m').
Proof. intros E. now rewrite (bind_eq _ _ _ _ _ E). Qed.

(** ** The stopwatch as a counter modulo 6000 *)

Lemma total_seconds_split m n :
  time_ok m -> total_seconds m = n mod 6000 ->
  seconds m = n mod 60 /\ minutes m = (n / 60) mod 100.
Proof.
  unfold time_ok, total_seconds. intros [Hs Hm] E.
  change 6000 with (60 * 100) in E. rewrite Z.rem_mul_r in E by lia.
  pose proof (Z.mod_pos_bound n 60).
  pose proof (Z.mod_pos_bound (n / 60) 100).
  lia.
Qed.

Lemma updateTime_total m :
  time_ok m ->
  exists m', updateTime m = Some (tt, m') /\ time_ok m' /\
    total_seconds m' = (total_seconds m + 1) mod 6000.
Proof.
  intros H. destruct (updateTime_keeps_time_ok m H) as (m' & E & H').
  exists m'. split; [exact E | split; [exact H' | ]].
  rewrite (updateTime_in_range m H) in E. injection E as <-.
  destruct H as [Hs Hm]. unfold total_seconds.
  destruct (Z.eqb_spec (seconds m) 59) as [E59 | E59];
    cbn [seconds minutes set_seconds set_minutes].
  - rewrite E59.
    replace (60 * minutes m + 59 + 1) with (60 * (minutes m + 1)) by lia.
    change 6000 with (60 * 100). rewrite Z.mul_mod_distr_l by lia. lia.
  - rewrite Z.mod_small; lia.
Qed.

Lemma other_handlers_keep_time c m :
  c <> TickTime -> c <> PressReset ->
  exists m', handler c m = Some (tt, m') /\
    seconds m' = seconds m /\ minutes m' = minutes m.
Proof.
  intros H1 H2. destruct c; try congruence; simpl.
  - erewrite bind_eq by apply updateDisplay_eq.
    eexists; split; [reflexivity | ]. now destruct (showVolt m).
  - eexists; split; [reflexivity | now split].
  - eexists; split; [reflexivity | now split].
Qed.

Lemma ticks_advance n : forall m,
  time_ok m ->
  exists m', run (repeat TickTime n) m = Some (tt, m') /\ time_ok m' /\
    total_seconds m' = (total_seconds m + Z.of_nat n) mod 6000.
Proof.
  induction n as [ | n IH]; intros m H.
  - exists m. split; [reflexivity | split; [exact H | ]].
    rewrite Z.add_0_r, Z.mod_small; [reflexivity | ].
    destruct H; unfold total_seconds; lia.
  - destruct (updateTime_total m H) as (m1 & E1 & H1 & T1).
    destruct (IH m1 H1) as (m2 & E2 & H2 & T2).
    exists m2. split; [ | split; [exact H2 | ]].
    + simpl. now rewrite (bind_eq _ _ _ _ _ E1).
    + rewrite T2, T1, Z.add_mod_idemp_l by lia. f_equal. lia.
Qed.

Lemma elapsed_since_reset p cs :
  exists m, run cs (boot p) = Some (tt, m) /\ time_ok m /\
    total_seconds m = ticks_since_reset cs mod 6000.
Proof.
  induction cs as [ | c cs IH] using rev_ind.
  - exists (boot p). split; [reflexivity | split; [apply boot_time_ok | reflexivity]].
  - destruct IH as (m & E & H & T).
    rewrite (run_snoc _ c _ _ E).
    unfold ticks_since_reset in *. rewrite rev_app_distr. simpl rev. simpl app.
    destruct c.
    + destruct (updateTime_total m H) as (m' & E' & H' & T').
      exists m'. split; [now apply handler_ret | split; [exact H' | ]].
      cbn [ticks_since_reset_rev].
      rewrite T', T, Z.add_mod_idemp_l by lia. f_equal. lia.
    + destruct (other_handlers_keep_time TickDisplay m) as (m' & E' & Es & Em);
        try discriminate.
      exists m'. split; [now apply handler_ret | ].
      unfold time_ok, total_seconds in *. rewrite Es, Em. now split.
    + eexists. split; [reflexivity | ]. split; [unfold time_ok; simpl; lia | reflexivity].
    + eexists. split; [reflexivity | ]. now split.
    + eexists. split; [reflexivity | ]. now split.
Qed.

(** ** Digits *)

Lemma recompose_decompose d :
  0 <= d -> recompose (decompose d) = d mod 10000.
Proof.
  intros H. unfold recompose, decompose, Int.rem, Int.div.
  rewrite !Z.quot_div_nonneg by lia.
  rewrite !Z.rem_mod_nonneg by (try apply Z.div_pos; lia).
  Z.div_mod_to_equations. lia.
Qed.

(** ** What the shift registers receive *)

Lemma drive_app d a b : drive d (a ++ b) = drive (drive d a) b.
Proof. apply fold_left_app. Qed.

Lemma shield_emit_all es m : shield (emit_all es m) = drive (shield m) es.
Proof. unfold shield. cbn [trace emit_all]. apply drive_app. Qed.

Lemma drive_bit d b :
  d_clock d = false ->
  drive d (PinWrite dataPin b :: clock_pulse) =
  mkDevice (level b) false (d_latch d)
           (shift_in (level b) (d_shift d)) (d_shown d).
Proof. destruct d; cbn; intros ->; reflexivity. Qed.

Lemma shift_in_mod b x :
  shift_in b (x mod 65536) = (2 * x + Z.b2z b) mod 65536.
Proof. unfold shift_in. Z.div_mod_to_equations. lia. Qed.

Lemma level_bit v k :
  0 <= k -> Z.b2z (level (Z.land (Z.shiftr v k) 1)) = (v / 2 ^ k) mod 2.
Proof.
  intros Hk. change 1 with (Z.ones 1) at 1.
  rewrite Z.land_ones, Z.shiftr_div_pow2 by lia.
  change (2 ^ 1) with 2.
  pose proof (Z.mod_pos_bound (v / 2 ^ k) 2) as Hb.
  assert (Hc : (v / 2 ^ k) mod 2 = 0 \/ (v / 2 ^ k) mod 2 = 1) by lia.
  destruct Hc as [-> | ->]; reflexivity.
Qed.

Lemma drive_bits (f : nat -> Z) ks : forall d,
  d_clock d = false ->
  d_clock (drive d (flat_map (fun k => PinWrite dataPin (f k) :: clock_pulse) ks))
    = false /\
  d_latch (drive d (flat_map (fun k => PinWrite dataPin (f k) :: clock_pulse) ks))
    = d_latch d /\
  d_shown (drive d (flat_map (fun k => PinWrite dataPin (f k) :: clock_pulse) ks))
    = d_shown d /\
  d_shift (drive d (flat_map (fun k => PinWrite dataPin (f k) :: clock_pulse) ks))
    = fold_left (fun s k => shift_in (level (f k)) s) ks (d_shift d).
Proof.
  induction ks as [ | k ks IH]; intros d Hc.
  - now repeat split.
  - cbn [flat_map fold_left]. rewrite drive_app, drive_bit by exact Hc.
    apply (IH (mkDevice _ _ _ _ _)). reflexivity.
Qed.

Lemma drive_byte v d :
  0 <= v < 256 -> d_clock d = false ->
  d_clock (drive d (byte_msb_first v)) = false /\
  d_latch (drive d (byte_msb_first v)) = d_latch d /\
  d_shown (drive d (byte_msb_first v)) = d_shown d /\
  d_shift (drive d (byte_msb_first v)) = (256 * d_shift d + v) mod 65536.
Proof.
  intros Hv Hc. unfold byte_msb_first.
  destruct (drive_bits (msb_bit v) (seq 0 8) d Hc) as (H1 & H2 & H3 & H4).
  repeat split; try assumption.
  rewrite H4. cbn [seq fold_left]. unfold msb_bit.
  unfold shift_in at 8.
  rewrite !shift_in_mod, !level_bit by (cbn; lia).
  change (2 ^ (7 - Z.of_nat 0)) with 128; change (2 ^ (7 - Z.of_nat 1)) with 64;
    change (2 ^ (7 - Z.of_nat 2)) with 32; change (2 ^ (7 - Z.of_nat 3)) with 16;
    change (2 ^ (7 - Z.of_nat 4)) with 8; change (2 ^ (7 - Z.of_nat 5)) with 4;
    change (2 ^ (7 - Z.of_nat 6)) with 2; change (2 ^ (7 - Z.of_nat 7)) with 1.
  Z.div_mod_to_equations. lia.
Qed.

Lemma drive_register_write bits digit d :
  0 <= bits < 256 -> 0 <= digit < 256 -> d_clock d = false ->
  d_clock (drive d (register_write bits digit)) = false /\
  d_latch (drive d (register_write bits digit)) = true /\
  d_shift (drive d (register_write bits digit)) = frame bits digit /\
  d_shown (drive d (register_write bits digit))
    = d_shown d ++ [frame bits digit].
Proof.
  intros Hb Hd Hc. unfold register_write.
  rewrite drive_app.
  set (d0 := drive d [PinWrite latchPin 0]).
  assert (Hc0 : d_clock d0 = false) by exact Hc.
  assert (Hs0 : d_shift d0 = d_shift d) by reflexivity.
  assert (Hh0 : d_shown d0 = d_shown d) by (subst d0; cbn; now rewrite andb_false_r).
  assert (Hl0 : d_latch d0 = false) by reflexivity.
  rewrite drive_app.
  destruct (drive_byte bits d0 Hb Hc0) as (Hc1 & Hl1 & Hh1 & Hs1).
  set (d1 := drive d0 (byte_msb_first bits)) in *.
  rewrite drive_app.
  destruct (drive_byte digit d1 Hd Hc1) as (Hc2 & Hl2 & Hh2 & Hs2).
  set (d2 := drive d1 (byte_msb_first digit)) in *.
  assert (Hs : d_shift d2 = frame bits digit).
  { rewrite Hs2, Hs1, Hs0. unfold frame. Z.div_mod_to_equations. lia. }
  cbn [drive fold_left device_step d_clock d_latch d_shift d_shown].
  rewrite Hl2, Hl1, Hl0, Hh2, Hh1, Hh0, Hs.
  now repeat split.
Qed.

Lemma segments_byte sv i : 0 <= segments sv i < 256.
Proof. unfold segments. destruct (sv && (i =? DP_POS)); lia. Qed.

Lemma drive_write_sleep bits digit ms d :
  0 <= bits < 256 -> 0 <= digit < 256 -> d_clock d = false ->
  d_clock (drive d (register_write bits digit ++ [SleepFor ms])) = false /\
  d_shown (drive d (register_write bits digit ++ [SleepFor ms]))
    = d_shown d ++ [frame bits digit].
Proof.
  intros Hb Hd Hc. rewrite drive_app.
  destruct (drive_register_write bits digit d Hb Hd Hc) as (H1 & _ & _ & H4).
  now split.
Qed.

Lemma drive_writes (g h : Z -> Z) ms js :
  (forall j, In j js -> 0 <= g j < 256 /\ 0 <= h j < 256) ->
  forall d, d_clock d = false ->
  d_clock (drive d (flat_map (fun j => register_write (g j) (h j)
                                         ++ [SleepFor ms]) js)) = false /\
  d_shown (drive d (flat_map (fun j => register_write (g j) (h j)
                                         ++ [SleepFor ms]) js))
    = d_shown d ++ map (fun j => frame (g j) (h j)) js.
Proof.
  induction js as [ | j js IH]; intros Hjs d Hc.
  - cbn. now rewrite app_nil_r.
  - cbn [flat_map map]. rewrite drive_app.
    destruct (Hjs j (or_introl eq_refl)) as [Hg Hh].
    destruct (drive_write_sleep (g j) (h j) ms d Hg Hh Hc) as [C S].
    destruct (IH (fun k Hk => Hjs k (or_intror Hk)) _ C) as [C' S'].
    split; [exact C' | ].
    rewrite S', S, <- app_assoc. reflexivity.
Qed.

Lemma drive_refresh_events sv d :
  d_clock d = false ->
  d_clock (drive d (refresh_events sv)) = false /\
  d_shown (drive d (refresh_events sv)) = d_shown d ++ refresh_frames sv.
Proof.
  intros Hc. unfold refresh_events, refresh_frames.
  apply (drive_writes (segments sv) (Z.shiftl 1)); [ | exact Hc].
  intros j Hj. split; [apply segments_byte | ].
  cbn in Hj. destruct Hj as [<- | [<- | [<- | [<- | []]]]]; cbn; lia.
Qed.

(** ** The order of floats is transitive *)

Lemma lex_le_trans (e1 e2 e3 : Z) (m1 m2 m3 : positive) :
  match Z.compare e1 e2 with
  | Lt => Lt | Gt => Gt | Eq => Pos.compare_cont Eq m1 m2 end <> Gt ->
  match Z.compare e2 e3 with
  | Lt => Lt | Gt => Gt | Eq => Pos.compare_cont Eq m2 m3 end <> Gt ->
  match Z.compare e1 e3 with
  | Lt => Lt | Gt => Gt | Eq => Pos.compare_cont Eq m1 m3 end <> Gt.
Proof.
  change (Pos.compare_cont Eq m1 m2) with (Pos.compare m1 m2).
  change (Pos.compare_cont Eq m2 m3) with (Pos.compare m2 m3).
  change (Pos.compare_cont Eq m1 m3) with (Pos.compare m1 m3).
  destruct (Z.compare_spec e1 e2), (Z.compare_spec e2 e3),
    (Z.compare_spec e1 e3); try lia; try congruence;
    destruct (Pos.compare_spec m1 m2), (Pos.compare_spec m2 m3),
      (Pos.compare_spec m1 m3); try lia; congruence.
Qed.

Lemma lex_ge_trans (e1 e2 e3 : Z) (m1 m2 m3 : positive) :
  match Z.compare e1 e2 with
  | Lt => Lt | Gt => Gt | Eq => Pos.compare_cont Eq m1 m2 end <> Lt ->
  match Z.compare e2 e3 with
  | Lt => Lt | Gt => Gt | Eq => Pos.compare_cont Eq m2 m3 end <> Lt ->
  match Z.compare e1 e3 with
  | Lt => Lt | Gt => Gt | Eq => Pos.compare_cont Eq m1 m3 end <> Lt.
Proof.
  change (Pos.compare_cont Eq m1 m2) with (Pos.compare m1 m2).
  change (Pos.compare_cont Eq m2 m3) with (Pos.compare m2 m3).
  change (Pos.compare_cont Eq m1 m3) with (Pos.compare m1 m3).
  destruct (Z.compare_spec e1 e2), (Z.compare_spec e2 e3),
    (Z.compare_spec e1 e3); try lia; try congruence;
    destruct (Pos.compare_spec m1 m2), (Pos.compare_spec m2 m3),
      (Pos.compare_spec m1 m3); try lia; congruence.
Qed.

Lemma fle_trans x y z : fle x y -> fle y z -> fle x z.
Proof.
  unfold fle, SFleb.
  destruct x as [sx | sx | | sx mx ex], y as [sy | sy | | sy my ey],
    z as [sz | sz | | sz mz ez];
    try destruct sx; try destruct sy; try destruct sz;
    cbn [SFcompare]; try easy.
  - pose proof (lex_ge_trans ex ey ez mx my mz) as T.
    destruct (Z.compare ex ey), (Z.compare ey ez), (Z.compare ex ez);
      try easy;
      try (destruct (Pos.compare_cont Eq mx my));
      try (destruct (Pos.compare_cont Eq my mz));
      try (destruct (Pos.compare_cont Eq mx mz));
      cbn [CompOpp]; try easy; intros _ _; exfalso; apply T; easy.
  - pose proof (lex_le_trans ex ey ez mx my mz) as T.
    destruct (Z.compare ex ey), (Z.compare ey ez), (Z.compare ex ez);
      try easy;
      try (destruct (Pos.compare_cont Eq mx my));
      try (destruct (Pos.compare_cont Eq my mz));
      try (destruct (Pos.compare_cont Eq mx mz));
      try easy; intros _ _; exfalso; apply T; easy.
Qed.

Lemma lt_fle x y : SFltb x y = true -> fle x y.
Proof.
  unfold fle, SFltb, SFleb. now destruct (SFcompare x y) as [[ | | ] | ].
Qed.

Lemma fmin_le_r x y : is_nan x = false -> is_nan y = false -> fle (fmin x y) y.
Proof.
  intros Hx Hy. unfold fmin. rewrite Hx, Hy.
  destruct (SFltb x y) eqn:E; [now apply lt_fle | now apply fle_refl].
Qed.

Lemma fmax_ge_r x y : is_nan x = false -> is_nan y = false -> fle y (fmax x y).
Proof.
  intros Hx Hy. unfold fmax. rewrite Hx, Hy.
  destruct (SFltb y x) eqn:E; [now apply lt_fle | now apply fle_refl].
Qed.

Lemma fmin_choice x y : fmin x y = x \/ fmin x y = y.
Proof.
  unfold fmin. destruct (is_nan x); [now right | ].
  destruct (is_nan y); [now left | ]. destruct (SFltb x y); auto.
Qed.

Lemma fmax_choice x y : fmax x y = x \/ fmax x y = y.
Proof.
  unfold fmax. destruct (is_nan x); [now right | ].
  destruct (is_nan y); [now left | ]. destruct (SFltb y x); auto.
Qed.

(** ** Handlers in closed form *)

Lemma handler_display_eq m :
  handler TickDisplay m =
  Some (tt, emit_all (refresh_events (showVolt m))
                     (if showVolt m then sampled m else m)).
Proof. cbn [handler]. now erewrite bind_eq by apply updateDisplay_eq. Qed.

Lemma handler_quiet c m :
  c <> TickDisplay ->
  exists m', handler c m = Some (tt, m') /\
    trace m' = trace m /\ pot m' = pot m /\ pot_reads m' = pot_reads m /\
    minVoltage m' = minVoltage m /\ maxVoltage m' = maxVoltage m /\
    showVolt m' = match c with
                  | PressMode => true
                  | ReleaseMode => false
                  | _ => showVolt m
                  end.
Proof.
  intros Hc. destruct c; try congruence; cbn [handler].
  - rewrite updateTime_eq. eexists; split; [reflexivity | ].
    now destruct (60 <=? Int.add (seconds m) 1).
  - eexists; split; [reflexivity | now repeat split].
  - eexists; split; [reflexivity | now repeat split].
  - eexists; split; [reflexivity | now repeat split].
Qed.

(** ** The recorded extremes and the readings *)

Lemma sampled_keeps_extremes p m :
  extremes_ok p m -> extremes_ok p (sampled m).
Proof.
  intros (Hp & [Hlo Hhi] & Hb & [Hmin Hmax]).
  assert (Hv : next_voltage m = voltage_at p (pot_reads m))
    by (unfold next_voltage, voltage_at; now rewrite Hp).
  split; [exact Hp | split; [ | split; [ | split]]].
  - split; cbn; [now apply fmin_not_nan | now apply fmax_not_nan].
  - intros k Hk Hnan. cbn in Hk |- *. rewrite Hv.
    assert (Hcase : (k < pot_reads m)%nat \/ k = pot_reads m) by lia.
    destruct Hcase as [Hlt | ->].
    + destruct (Hb k Hlt Hnan) as [B1 B2]. split.
      * eapply fle_trans; [now apply fmin_le | exact B1].
      * eapply fle_trans; [exact B2 | now apply fmax_ge].
    + split; [now apply fmin_le_r | now apply fmax_ge_r].
  - cbn. rewrite Hv.
    destruct (fmin_choice (minVoltage m) (voltage_at p (pot_reads m))) as [-> | ->].
    + destruct Hmin as [E | (k & Hk & E)]; [now left | right].
      exists k. split; [lia | exact E].
    + right. exists (pot_reads m). split; [lia | reflexivity].
  - cbn. rewrite Hv.
    destruct (fmax_choice (maxVoltage m) (voltage_at p (pot_reads m))) as [-> | ->].
    + destruct Hmax as [E | (k & Hk & E)]; [now left | right].
      exists k. split; [lia | exact E].
    + right. exists (pot_reads m). split; [lia | reflexivity].
Qed.

Lemma handler_keeps_extremes p c m :
  extremes_ok p m ->
  exists m', handler c m = Some (tt, m') /\ extremes_ok p m'.
Proof.
  intros H. destruct c.
  2: { rewrite handler_display_eq. eexists; split; [reflexivity | ].
       destruct (showVolt m); [ | exact H].
       exact (sampled_keeps_extremes p m H). }
  all: match goal with |- context [handler ?c ?x] =>
         destruct (handler_quiet c x ltac:(discriminate))
           as (m' & E & _ & Ep & Er & Elo & Ehi & _) end;
       exists m'; (split; [exact E | ]);
       destruct H as (Hp & [Hlo Hhi] & Hb & Hatt);
       unfold extremes_ok, volts_ok, bounds_samples, attained;
       rewrite Ep, Er, Elo, Ehi; auto.
Qed.

Lemma run_keeps_extremes p cs : forall m,
  extremes_ok p m ->
  exists m', run cs m = Some (tt, m') /\ extremes_ok p m'.
Proof.
  induction cs as [ | c cs IH]; intros m H.
  - exists m. now split.
  - destruct (handler_keeps_extremes p c m H) as (m1 & E1 & H1).
    destruct (IH m1 H1) as (m2 & E2 & H2).
    exists m2. split; [ | exact H2].
    cbn [run]. now rewrite (bind_eq _ _ _ _ _ E1).
Qed.

Lemma boot_extremes_ok p : extremes_ok p (boot p).
Proof.
  split; [reflexivity | split; [apply boot_volts_ok | split]].
  - intros k Hk. cbn in Hk. lia.
  - split; now left.
Qed.

(** ** A run, call by call *)

Lemma run_effects cs : forall m,
  exists m', run cs m = Some (tt, m') /\
    trace m' = trace m ++ flat_map refresh_events (refresh_modes (showVolt m) cs) /\
    pot_reads m' = (pot_reads m
                    + length (filter (fun b => b) (refresh_modes (showVolt m) cs)))%nat.
Proof.
  induction cs as [ | c cs IH]; intros m.
  - exists m. cbn. now rewrite app_nil_r, Nat.add_0_r.
  - assert (Hstep : exists m1, handler c m = Some (tt, m1) /\
              trace m1 ++ flat_map refresh_events (refresh_modes (showVolt m1) cs)
              = trace m ++ flat_map refresh_events (refresh_modes (showVolt m) (c :: cs)) /\
              (pot_reads m1
               + length (filter (fun b => b) (refresh_modes (showVolt m1) cs)))%nat
              = (pot_reads m
                 + length (filter (fun b => b)
                             (refresh_modes (showVolt m) (c :: cs))))%nat).
    { destruct c.
      2: { rewrite handler_display_eq. eexists; split; [reflexivity | ].
           cbn [refresh_modes flat_map filter].
           destruct (showVolt m) eqn:Hsv; cbn; rewrite ?Hsv, <- ?app_assoc;
             split; try reflexivity; lia. }
      all: match goal with |- context [handler ?c ?x] =>
             destruct (handler_quiet c x ltac:(discriminate))
               as (m1 & E & Et & _ & Er & _ & _ & Es) end;
           exists m1; (split; [exact E | ]);
           cbn [refresh_modes]; rewrite Et, Er, Es; split; reflexivity. }
    destruct Hstep as (m1 & E1 & Ht & Hr).
    destruct (IH m1) as (m2 & E2 & Ht2 & Hr2).
    exists m2. split; [ | split; congruence].
    cbn [run]. now rewrite (bind_eq _ _ _ _ _ E1).
Qed.




Lemma drive_refreshes l : forall d,
  d_clock d = false ->
  d_clock (drive d (flat_map refresh_events l)) = false /\
  d_shown (drive d (flat_map refresh_events l))
    = d_shown d ++ flat_map refresh_frames l.
Proof.
  induction l as [ | sv l IH]; intros d Hc.
  - cbn. now rewrite app_nil_r.
  - cbn [flat_map]. rewrite drive_app.
    destruct (drive_refresh_events sv d Hc) as [C S].
    destruct (IH _ C) as [C' S'].
    split; [exact C' | ]. rewrite S', S, <- app_assoc. reflexivity.
Qed.

(** ** One iteration of the refresh, for any digits *)

Lemma index_eq a i v m :
  0 <= i -> nth_error a (Z.to_nat i) = Some v -> index a i m = Some (v, m).
Proof.
  intros Hi E. unfold index.
  destruct (Z.ltb_spec i 0); [lia | ]. now rewrite E.
Qed.

Lemma table_entry_without_dp d b :
  nth_error digitBits d = Some b ->
  uint8 (Z.land b (Z.lnot 0x80)) = b - 128 /\ 128 <= b < 256.
Proof.
  do 10 (destruct d as [ | d]; [intros [= <-]; cbn; lia | ]).
  destruct d; discriminate.
Qed.

Lemma refresh_digit_any i l m d b :
  0 <= i < 4 -> 0 <= d ->
  nth_error (digits l) (Z.to_nat i) = Some d ->
  nth_error digitBits (Z.to_nat d) = Some b ->
  refresh_digit i l m =
  Some (if showVolt m && (i =? DP_POS)
        then mkLocals (to_int (mul (next_voltage m) (of_int 100))) (digits l)
        else l,
        emit_all (register_write
                    (if showVolt m && (i =? DP_POS) then b - 128 else b)
                    (Z.shiftl 1 i)
                    ++ [SleepFor DIGIT_REFRESH_DELAY_MS])
                 (if showVolt m && (i =? DP_POS) then sampled m else m)).
Proof.
  intros Hi Hd El Eb. unfold refresh_digit.
  rewrite (bind_eq _ _ _ _ _ (index_eq _ _ _ m (proj1 Hi) El)).
  rewrite (bind_eq _ _ _ _ _ (index_eq _ _ _ m Hd Eb)).
  destruct (table_entry_without_dp _ _ Eb) as [Edp _].
  assert (Ep : forall m0, index digitPos i m0 = Some (Z.shiftl 1 i, m0)).
  { intros m0. apply index_eq; [lia | ].
    assert (Hc : i = 0 \/ i = 1 \/ i = 2 \/ i = 3) by lia.
    destruct Hc as [-> | [-> | [-> | ->]]]; reflexivity. }
  unfold bind at 1, read at 1.
  destruct (showVolt m && (i =? DP_POS)) eqn:Edpos.
  - unfold bind at 1. unfold bind at 1, pot_read at 1.
    unfold bind at 1, read at 1. unfold bind at 1, modify at 1.
    unfold bind at 1, read at 1. unfold bind at 1, modify at 1.
    unfold ret at 1. cbn [fst snd].
    rewrite (bind_eq _ _ _ _ _ (Ep _)).
    rewrite (bind_eq _ _ _ _ _ (writeToShiftRegister_eq _ _ _)).
    unfold bind, sleep_for, modify, ret.
    rewrite Edp, emit_emit_all. reflexivity.
  - unfold bind at 1, ret at 1. cbn [fst snd].
    rewrite (bind_eq _ _ _ _ _ (Ep _)).
    rewrite (bind_eq _ _ _ _ _ (writeToShiftRegister_eq _ _ _)).
    unfold bind, sleep_for, modify, ret.
    rewrite emit_emit_all. reflexivity.
Qed.

(** * Further properties of the firmware *)

(** X1. The four digits computed from a non-negative value are decimal
    digits whose weighted sum is the value modulo 10000; for a value of at
    most four digits the sum is the value itself. *)
Theorem decompose_recompose d :
  0 <= d ->
  Forall (fun x => 0 <= x <= 9) (decompose d) /\
  recompose (decompose d) = d mod 10000 /\
  (d <= 9999 -> recompose (decompose d) = d).
Proof.
  intros H. split; [now apply decompose_digits | ].
  rewrite (recompose_decompose d H). split; [reflexivity | ].
  intros Hd. apply Z.mod_small. lia.
Qed.

(** The digits of 1234. *)
Lemma decompose_recompose_witness :
  0 <= 1234 /\
  Forall (fun x => 0 <= x <= 9) (decompose 1234) /\
  recompose (decompose 1234) = 1234 mod 10000 /\
  (1234 <= 9999 -> recompose (decompose 1234) = 1234).
Proof.
  assert (H : 0 <= 1234) by lia.
  split; [exact H | exact (decompose_recompose 1234 H)].
Defined.

(** X2. From counters in their ranges, [n] calls of [updateTime] in a row
    advance the time shown by [n] seconds modulo 100 minutes: with [t] the
    time before, in seconds, the counters end at [(t + n) mod 60] seconds and
    [((t + n) / 60) mod 100] minutes.  After 6000 calls they are back where
    they were. *)
Theorem stopwatch_counts_ticks m n :
  time_ok m ->
  (exists m', run (repeat TickTime n) m = Some (tt, m') /\
     seconds m' = (total_seconds m + Z.of_nat n) mod 60 /\
     minutes m' = ((total_seconds m + Z.of_nat n) / 60) mod 100) /\
  (exists m', run (repeat TickTime (Z.to_nat 6000)) m = Some (tt, m') /\
     seconds m' = seconds m /\ minutes m' = minutes m).
Proof.
  intros H. split.
  - destruct (ticks_advance n m H) as (m' & E & H' & T).
    exists m'. split; [exact E | ]. now apply total_seconds_split.
  - destruct (ticks_advance (Z.to_nat 6000) m H) as (m' & E & H' & T).
    exists m'. split; [exact E | ].
    assert (T0 : total_seconds m' = total_seconds m mod 6000).
    { rewrite T, Z2Nat.id by lia. change 6000 with (1 * 6000) at 1.
      now rewrite Z.mod_add by lia. }
    destruct (total_seconds_split m' _ H' T0) as [Es Em].
    assert (Tm : total_seconds m = total_seconds m mod 6000).
    { symmetry. apply Z.mod_small. destruct H. unfold total_seconds. lia. }
    destruct (total_seconds_split m _ H Tm) as [Es' Em'].
    split; congruence.
Qed.

(** Sixty-one ticks from 99:59. *)
Lemma stopwatch_counts_ticks_witness :
  time_ok at_99_59 /\
  (exists m', run (repeat TickTime 61) at_99_59 = Some (tt, m') /\
     seconds m' = (total_seconds at_99_59 + Z.of_nat 61) mod 60 /\
     minutes m' = ((total_seconds at_99_59 + Z.of_nat 61) / 60) mod 100) /\
  (exists m', run (repeat TickTime (Z.to_nat 6000)) at_99_59 = Some (tt, m') /\
     seconds m' = seconds at_99_59 /\ minutes m' = minutes at_99_59).
Proof.
  assert (H : time_ok at_99_59) by (unfold time_ok; cbn; lia).
  split; [exact H | exact (stopwatch_counts_ticks at_99_59 61 H)].
Defined.

(** X3. After any run of the firmware from boot the counters show the
    number [n] of time ticks since the reset button was last pressed (since
    boot if it never was): [n mod 60] seconds and [(n / 60) mod 100] minutes,
    whatever display ticks and mode-button edges came in between. *)
Theorem stopwatch_since_reset p cs :
  exists m, run cs (boot p) = Some (tt, m) /\
    seconds m = ticks_since_reset cs mod 60 /\
    minutes m = (ticks_since_reset cs / 60) mod 100.
Proof.
  destruct (elapsed_since_reset p cs) as (m & E & H & T).
  exists m. split; [exact E | now apply total_seconds_split].
Qed.

(** X4. After any run from boot [showVolt] tells whether the most recent
    edge of the mode button was a press: it is false if the button was never
    touched or was last released, true if it was last pressed; time ticks,
    display ticks and the reset button do not change it. *)
Theorem mode_flag_follows_button p cs :
  exists m, run cs (boot p) = Some (tt, m) /\ showVolt m = mode_held cs.
Proof.
  induction cs as [ | c cs IH] using rev_ind.
  - exists (boot p). now split.
  - destruct IH as (m & E & Hm).
    rewrite (run_snoc _ c _ _ E).
    unfold mode_held in *. rewrite rev_app_distr. cbn [rev app].
    destruct c.
    2: { exists (emit_all (refresh_events (showVolt m))
                   (if showVolt m then sampled m else m)).
         split; [apply handler_ret, handler_display_eq | ].
         cbn [mode_held_rev]. rewrite <- Hm.
         destruct (showVolt m) eqn:Hsv; cbn; now rewrite Hsv. }
    all: match goal with |- context [bind (handler ?c) _ ?x] =>
           destruct (handler_quiet c x ltac:(discriminate))
             as (m1 & E1 & _ & _ & _ & _ & _ & Es) end;
         exists m1; (split; [now apply handler_ret | ]);
         cbn [mode_held_rev]; congruence.
Qed.


(** X5. A write of two bytes reaches the outputs whole: if the clock pin is
    low beforehand, then after [writeToShiftRegister bits digit] the shift
    registers hold [bits] in the upper and [digit] in the lower byte,
    whatever they held before, and the outputs have taken exactly that one
    new value; the clock pin is low again. *)
Theorem write_reaches_outputs bits digit m :
  0 <= bits < 256 -> 0 <= digit < 256 -> d_clock (shield m) = false ->
  exists m', writeToShiftRegister bits digit m = Some (tt, m') /\
    d_shift (shield m') = 256 * bits + digit /\
    d_shown (shield m') = d_shown (shield m) ++ [256 * bits + digit] /\
    d_clock (shield m') = false /\
    (256 * bits + digit) / 256 = bits /\
    (256 * bits + digit) mod 256 = digit.
Proof.
  intros Hb Hd Hc. rewrite writeToShiftRegister_eq.
  eexists; split; [reflexivity | ]. rewrite shield_emit_all.
  destruct (drive_register_write bits digit (shield m) Hb Hd Hc)
    as (H1 & _ & H3 & H4).
  unfold frame in *. repeat split; try assumption.
  - Z.div_mod_to_equations. lia.
  - Z.div_mod_to_equations. lia.
Qed.

(** The pattern of the digit 2 sent to the third position at boot. *)
Lemma write_reaches_outputs_witness :
  0 <= 0xA4 < 256 /\ 0 <= 4 < 256 /\
  d_clock (shield (boot (steady half))) = false /\
  exists m', writeToShiftRegister 0xA4 4 (boot (steady half)) = Some (tt, m') /\
    d_shift (shield m') = 256 * 0xA4 + 4 /\
    d_shown (shield m') = d_shown (shield (boot (steady half))) ++ [256 * 0xA4 + 4] /\
    d_clock (shield m') = false /\
    (256 * 0xA4 + 4) / 256 = 0xA4 /\
    (256 * 0xA4 + 4) mod 256 = 4.
Proof.
  assert (Hb : 0 <= 0xA4 < 256) by lia.
  assert (Hd : 0 <= 4 < 256) by lia.
  assert (Hc : d_clock (shield (boot (steady half))) = false) by reflexivity.
  split; [exact Hb | split; [exact Hd | split; [exact Hc | ]]].
  exact (write_reaches_outputs 0xA4 4 (boot (steady half)) Hb Hd Hc).
Defined.

(** X6. After any run from boot, the values the outputs of the shift
    registers have taken are exactly, for each display tick in order, the
    four frames of that refresh: the pattern of the digit 0 on lines 0 to 3
    in turn, with the decimal point on line 1 when the tick ran in voltage
    mode.  No partial or other value ever appears on the outputs. *)
Theorem display_outputs_after_run p cs :
  exists m, run cs (boot p) = Some (tt, m) /\
    d_shown (shield m) = flat_map refresh_frames (refresh_modes false cs) /\
    d_clock (shield m) = false /\
    Forall (fun f => In f [0xC001; 0xC002; 0x4002; 0xC004; 0xC008])
           (d_shown (shield m)).
Proof.
  destruct (run_effects cs (boot p)) as (m & E & Ht & _).
  exists m. split; [exact E | ].
  cbn [trace boot app showVolt] in Ht.
  destruct (drive_refreshes (refresh_modes false cs) power_on eq_refl) as [C S].
  unfold shield. rewrite Ht. cbn [d_shown power_on app] in S.
  split; [exact S | split; [exact C | ]].
  rewrite S. apply Forall_flat_map, Forall_forall. intros sv _.
  destruct sv.
  - change (refresh_frames true) with [0xC001; 0x4002; 0xC004; 0xC008].
    repeat (apply Forall_cons; [cbn [In]; tauto | ]). apply Forall_nil.
  - change (refresh_frames false) with [0xC001; 0xC002; 0xC004; 0xC008].
    repeat (apply Forall_cons; [cbn [In]; tauto | ]). apply Forall_nil.
Qed.


(** X8. The potentiometer is read once in each refresh that runs in voltage
    mode and never otherwise: a call of [updateDisplay] advances the count of
    readings by one when [showVolt] is set and leaves it alone when it is
    not, and after any run from boot the count is the number of display
    ticks that ran in voltage mode. *)
Theorem sensor_read_once_per_voltage_refresh p cs :
  (forall m0, exists l m1, updateDisplay m0 = Some (l, m1) /\
     pot_reads m1 = if showVolt m0 then S (pot_reads m0) else pot_reads m0) /\
  exists m, run cs (boot p) = Some (tt, m) /\
    pot_reads m = length (filter (fun b => b) (refresh_modes false cs)).
Proof.
  split.
  - intros m0. rewrite updateDisplay_eq. do 2 eexists.
    split; [reflexivity | ]. now destruct (showVolt m0).
  - destruct (run_effects cs (boot p)) as (m & E & _ & Hr).
    exists m. split; [exact E | exact Hr].
Qed.

(** X9. After any run from boot the recorded extremes enclose the readings:
    every voltage computed so far that is a number lies between [minVoltage]
    and [maxVoltage]. *)
Theorem extremes_enclose_readings p cs :
  exists m, run cs (boot p) = Some (tt, m) /\
    forall k, (k < pot_reads m)%nat -> is_nan (voltage_at p k) = false ->
      fle (minVoltage m) (voltage_at p k) /\
      fle (voltage_at p k) (maxVoltage m).
Proof.
  destruct (run_keeps_extremes p cs (boot p) (boot_extremes_ok p))
    as (m & E & _ & _ & Hb & _).
  exists m. split; [exact E | exact Hb].
Qed.

(** One refresh in voltage mode with the wiper at mid-travel. *)
Lemma extremes_enclose_readings_witness :
  exists m, run [PressMode; TickDisplay] (boot (steady half)) = Some (tt, m) /\
    forall k, (k < pot_reads m)%nat ->
      is_nan (voltage_at (steady half) k) = false ->
      fle (minVoltage m) (voltage_at (steady half) k) /\
      fle (voltage_at (steady half) k) (maxVoltage m).
Proof.
  exact (extremes_enclose_readings (steady half) [PressMode; TickDisplay]).
Defined.

(** X10. After any run from boot each recorded extreme is a value that
    really occurred: [minVoltage] is its initial 3.3 or one of the voltages
    computed so far, [maxVoltage] its initial 0 or one of those voltages; and
    neither is ever NaN. *)
Theorem extremes_are_readings p cs :
  exists m, run cs (boot p) = Some (tt, m) /\
    (minVoltage m = VREF \/
     exists k, (k < pot_reads m)%nat /\ minVoltage m = voltage_at p k) /\
    (maxVoltage m = S754_zero false \/
     exists k, (k < pot_reads m)%nat /\ maxVoltage m = voltage_at p k) /\
    is_nan (minVoltage m) = false /\ is_nan (maxVoltage m) = false.
Proof.
  destruct (run_keeps_extremes p cs (boot p) (boot_extremes_ok p))
    as (m & E & _ & [Hlo Hhi] & _ & [Hmin Hmax]).
  exists m. split; [exact E | ]. now repeat split.
Qed.

(** X11. At boot [minVoltage] (3.3) is above [maxVoltage] (0); after any run
    in which at least one reading gave a number, [minVoltage <= maxVoltage]. *)
Theorem extremes_ordered_after_reading p cs :
  ~ fle (minVoltage (boot p)) (maxVoltage (boot p)) /\
  exists m, run cs (boot p) = Some (tt, m) /\
    ((exists k, (k < pot_reads m)%nat /\ is_nan (voltage_at p k) = false) ->
     fle (minVoltage m) (maxVoltage m)).
Proof.
  split; [discriminate | ].
  destruct (run_keeps_extremes p cs (boot p) (boot_extremes_ok p))
    as (m & E & _ & _ & Hb & _).
  exists m. split; [exact E | ].
  intros (k & Hk & Hnan). destruct (Hb k Hk Hnan) as [B1 B2].
  exact (fle_trans _ _ _ B1 B2).
Qed.

(** One refresh in voltage mode with the wiper at mid-travel: a reading was
    taken and it is a number. *)
Lemma extremes_ordered_after_reading_witness :
  (exists m, run [PressMode; TickDisplay] (boot (steady half)) = Some (tt, m) /\
     (exists k, (k < pot_reads m)%nat /\
                is_nan (voltage_at (steady half) k) = false)) /\
  ~ fle (minVoltage (boot (steady half))) (maxVoltage (boot (steady half))) /\
  exists m, run [PressMode; TickDisplay] (boot (steady half)) = Some (tt, m) /\
    ((exists k, (k < pot_reads m)%nat /\
                is_nan (voltage_at (steady half) k) = false) ->
     fle (minVoltage m) (maxVoltage m)).
Proof.
  split.
  - destruct (run_effects [PressMode; TickDisplay] (boot (steady half)))
      as (m & E & _ & Hr).
    exists m. split; [exact E | ].
    exists 0%nat. split; [rewrite Hr; cbn; lia | reflexivity].
  - exact (extremes_ordered_after_reading (steady half) [PressMode; TickDisplay]).
Defined.

Lemma table_entry_bits n b :
  nth_error digitBits n = Some b ->
  Z.testbit (b - 128) 7 = false /\
  forall j, 0 <= j < 7 -> Z.testbit (b - 128) j = Z.testbit b j.
Proof.
  do 10 (destruct n as [ | n];
         [intros [= <-]; split; [reflexivity | ];
          intros j Hj;
          assert (Hc : j = 0 \/ j = 1 \/ j = 2 \/ j = 3 \/ j = 4 \/ j = 5 \/ j = 6)
            by lia;
          destruct Hc as [-> | [-> | [-> | [-> | [-> | [-> | ->]]]]]];
          reflexivity | ]).
  destruct n; discriminate.
Qed.

(** X12. One iteration of the refresh loop, for any digit array: if
    [digits[i]] is a digit [d] within 0..9, the iteration completes, leaves
    the digit array as it was, and appends to the trace exactly one write of
    the pattern [digitBits[d]] to line [i] alone (digit-select byte [2^i]),
    followed by the refresh delay.  The pattern goes out with bit 7 cleared
    (decimal point lit) exactly when [showVolt] is set and [i] is [DP_POS];
    its other bits are never changed. *)
Theorem refresh_digit_shows i l m d b :
  0 <= i < 4 -> 0 <= d ->
  nth_error (digits l) (Z.to_nat i) = Some d ->
  nth_error digitBits (Z.to_nat d) = Some b ->
  exists l' m', refresh_digit i l m = Some (l', m') /\
    digits l' = digits l /\
    trace m'
      = trace m
          ++ register_write
               (if showVolt m && (i =? DP_POS) then b - 128 else b) (2 ^ i)
          ++ [SleepFor DIGIT_REFRESH_DELAY_MS] /\
    128 <= b < 256 /\
    Z.testbit (b - 128) 7 = false /\
    (forall j, 0 <= j < 7 -> Z.testbit (b - 128) j = Z.testbit b j).
Proof.
  intros Hi Hd El Eb.
  rewrite (refresh_digit_any i l m d b Hi Hd El Eb).
  do 2 eexists. split; [reflexivity | ].
  split; [now destruct (showVolt m && (i =? DP_POS)) | ].
  assert (Ep : Z.shiftl 1 i = 2 ^ i).
  { assert (Hcase : i = 0 \/ i = 1 \/ i = 2 \/ i = 3) by lia.
    destruct Hcase as [-> | [-> | [-> | ->]]]; reflexivity. }
  rewrite Ep. split; [now destruct (showVolt m && (i =? DP_POS)) | ].
  destruct (table_entry_without_dp _ _ Eb) as [_ Hb].
  split; [exact Hb | ].
  exact (table_entry_bits _ _ Eb).
Qed.

(** The third position showing a 3 at boot. *)
Lemma refresh_digit_shows_witness :
  0 <= 2 < 4 /\ 0 <= 3 /\
  nth_error (digits (mkLocals 0 [1; 2; 3; 4])) (Z.to_nat 2) = Some 3 /\
  nth_error digitBits (Z.to_nat 3) = Some 0xB0 /\
  exists l' m',
    refresh_digit 2 (mkLocals 0 [1; 2; 3; 4]) (boot (steady half))
      = Some (l', m') /\
    digits l' = digits (mkLocals 0 [1; 2; 3; 4]) /\
    trace m'
      = trace (boot (steady half))
          ++ register_write
               (if showVolt (boot (steady half)) && (2 =? DP_POS)
                then 0xB0 - 128 else 0xB0) (2 ^ 2)
          ++ [SleepFor DIGIT_REFRESH_DELAY_MS] /\
    128 <= 0xB0 < 256 /\
    Z.testbit (0xB0 - 128) 7 = false /\
    (forall j, 0 <= j < 7 -> Z.testbit (0xB0 - 128) j = Z.testbit 0xB0 j).
Proof.
  assert (Hi : 0 <= 2 < 4) by lia.
  assert (Hd : 0 <= 3) by lia.
  assert (El : nth_error (digits (mkLocals 0 [1; 2; 3; 4])) (Z.to_nat 2) = Some 3)
    by reflexivity.
  assert (Eb : nth_error digitBits (Z.to_nat 3) = Some 0xB0) by reflexivity.
  split; [exact Hi | split; [exact Hd | split; [exact El | split; [exact Eb | ]]]].
  exact (refresh_digit_shows 2 (mkLocals 0 [1; 2; 3; 4]) (boot (steady half))
           3 0xB0 Hi Hd El Eb).
Defined.
